(** * A shallow embedding of [tap_csv/client.py] ([CSVStream])

    The stream object is modelled by explicit state passing: the instance
    attributes the code writes ([file_paths], [primary_keys]) live in a
    record, together with a log of the observable effects (logger warnings,
    files opened, rows pulled from a reader).  Python exceptions are the
    left injection of a small state/exception monad: as in Python, the
    attribute writes done before a [raise] survive it.

    The file system is an input: a function from path strings to nodes.  A
    regular file is given by the rows [csv.reader] produces for it after
    decompression (the byte-level decoders and the CSV grammar belong to the
    Python standard library, not to this repository). *)

From Stdlib Require Import String Ascii List Bool Arith Lia.
Import ListNotations.
Open Scope string_scope.


(** ** Strings: [str.lower] and [str.endswith] *)

(** [str.lower] on the characters the paths are made of (ASCII). *)
Definition lower_char (c : ascii) : ascii :=
  let n := nat_of_ascii c in
  if ((65 <=? n) && (n <=? 90))%nat then ascii_of_nat (n + 32)%nat else c.

Fixpoint lower (s : string) : string :=
  match s with
  | EmptyString => EmptyString
  | String c s' => String (lower_char c) (lower s')
  end.

(** [s.startswith]-style test on character lists. *)
Fixpoint prefixb (p l : list ascii) : bool :=
  match p, l with
  | [], _ => true
  | a :: p', b :: l' => Ascii.eqb a b && prefixb p' l'
  | _ :: _, [] => false
  end.

(** [s.endswith(suf)]: reversed, [suf] is a prefix of [s]. *)
Definition endswith (s suf : string) : bool :=
  prefixb (rev (list_ascii_of_string suf)) (rev (list_ascii_of_string s)).

(** ** Exceptions, events, configuration, file system *)

Inductive exc : Type :=
| Exception (msg : string)            (* raise Exception(...) *)
| UnboundLocalError (var : string)    (* a local read before assignment *)
| IsADirectoryError (path : string)
| FileNotFoundError (path : string).

(** Name of the Python class of an exception. *)
Definition exc_class (e : exc) : string :=
  match e with
  | Exception _ => "Exception"
  | UnboundLocalError _ => "UnboundLocalError"
  | IsADirectoryError _ => "IsADirectoryError"
  | FileNotFoundError _ => "FileNotFoundError"
  end.

(** [isinstance(e, NameError)]: [UnboundLocalError] subclasses [NameError]. *)
Definition is_NameError (e : exc) : bool :=
  match e with
  | UnboundLocalError _ => true
  | _ => false
  end.

(** The decompressing opener chosen by [get_rows]. *)
Inductive opener : Type :=
| gzip_open
| bz2_open
| lzma_open
| builtin_open.

Inductive event : Type :=
| Warning (msg : string)              (* self.logger.warning(msg) *)
| Opened (path : string) (o : opener) (* with opener(path, "rt") *)
| RowRead (path : string).            (* one row pulled from csv.reader *)

Definition row := list string.

(** A record is the [dict] built by [dict(zip(headers, row))]: an
    association list in insertion order. *)
Definition record := list (string * string).

Inductive node : Type :=
| FileNode (rows : list row)          (* a regular file and its CSV rows *)
| DirNode (entries : list string).    (* a directory and [os.listdir] of it *)

(** [None] means [os.path.exists] is false. *)
Definition filesystem := string -> option node.

(** [self.file_config]: the path and, when present, the [keys] entry. *)
Record file_config := mk_config {
  cfg_path : string;
  cfg_keys : option (list string)
}.

(** The instance attributes.  [file_paths] starts as the class attribute
    [[]]; [primary_keys] is [None] until [schema] assigns it. *)
Record stream := mk_stream {
  file_paths : list string;
  primary_keys : option (list string);
  log : list event
}.

Definition init_stream : stream := mk_stream [] None [].

(** ** The state/exception monad *)

Definition M (A : Type) : Type := stream -> (exc + A) * stream.

Definition ret {A} (a : A) : M A := fun st => (inr a, st).
Definition raise {A} (e : exc) : M A := fun st => (inl e, st).
Definition bind {A B} (m : M A) (k : A -> M B) : M B :=
  fun st => match m st with
            | (inl e, st') => (inl e, st')
            | (inr a, st') => k a st'
            end.

Notation "x <- m ;; k" := (bind m (fun x => k))
  (at level 61, m at next level, right associativity).

Definition emit (ev : event) : M unit :=
  fun st => (inr tt, mk_stream st.(file_paths) st.(primary_keys)
                                (st.(log) ++ [ev])%list).

Definition get_state : M stream := fun st => (inr st, st).
Definition set_file_paths (l : list string) : M unit :=
  fun st => (inr tt, mk_stream l st.(primary_keys) st.(log)).
Definition set_primary_keys (l : list string) : M unit :=
  fun st => (inr tt, mk_stream st.(file_paths) (Some l) st.(log)).

(** ** [is_valid_filename] *)

Definition supported_extensions : list string :=
  [".csv"; ".csv.gz"; ".csv.bz2"; ".csv.xz"; ".csv.lzma"].

(** ["', '.join(supported_extensions)"] *)
Fixpoint join (sep : string) (l : list string) : string :=
  match l with
  | [] => ""
  | [x] => x
  | x :: xs => x ++ sep ++ join sep xs
  end.

(** The [for check_ext in supported_extensions] loop with its early
    [return True]. *)
Fixpoint check_exts (file_path : string) (exts : list string) : bool :=
  match exts with
  | [] => false
  | ext :: exts' => if endswith file_path ext then true
                    else check_exts file_path exts'
  end.

Definition is_valid_filename (file_path : string) : M bool :=
  let file_path := lower file_path in
  if check_exts file_path supported_extensions then ret true
  else
    _ <- emit (Warning ("Skipping non-csv file '" ++ file_path ++ "'")) ;;
    _ <- emit (Warning ("Please provide a CSV file with any of supported extensions: "
                        ++ join ", " supported_extensions)) ;;
    ret false.

(** ** Stream methods *)

(** The JSON-schema types of [singer_sdk.typing] that the code uses. *)
Inductive jtype : Type :=
| StringType.

(** [th.Property(column, th.StringType())]. *)
Definition property := (string * jtype)%type.

(** [dict[k] = v]: overwrite in place if [k] is a key, else append. *)
Fixpoint dict_set (d : record) (k v : string) : record :=
  match d with
  | [] => [(k, v)]
  | (k', v') :: d' =>
      if String.eqb k k' then (k, v) :: d' else (k', v') :: dict_set d' k v
  end.

(** [dict(pairs)]. *)
Definition dict (pairs : list (string * string)) : record :=
  fold_left (fun d kv => dict_set d (fst kv) (snd kv)) pairs [].

(** [dict(zip(headers, row))]; [zip] is [combine]. *)
Definition zip_dict (headers r : row) : record := dict (combine headers r).

(** The opener selection at the top of [get_rows]. *)
Definition get_rows_opener (file_path : string) : opener :=
  if endswith (lower file_path) ".gz" then gzip_open
  else if endswith (lower file_path) ".bz2" then bz2_open
  else if endswith (lower file_path) ".xz"
          || endswith (lower file_path) ".lzma" then lzma_open
  else builtin_open.

(** [with opener(file_path, "rt") as f: reader = csv.reader(f)]: the
    opener chosen and the rows the reader will produce, or the error raised
    by opening. *)
Definition get_rows (fs : filesystem) (file_path : string)
  : exc + (opener * list row) :=
  let o := get_rows_opener file_path in
  match fs file_path with
  | Some (FileNode rows) => inr (o, rows)
  | Some (DirNode _) => inl (IsADirectoryError file_path)
  | None => inl (FileNotFoundError file_path)
  end.

(** The inner loop of [get_records] for one file: [headers] starts as
    [[]]; while it is empty ([if not headers]) the row read becomes the
    headers, afterwards each row yields [dict(zip(headers, row))]. *)
Fixpoint file_records (headers : row) (rows : list row) : list record :=
  match rows with
  | [] => []
  | r :: rs =>
      match headers with
      | [] => file_records r rs
      | _ :: _ => zip_dict headers r :: file_records headers rs
      end
  end.

(** [self.file_config.get("keys", [])]. *)
Definition config_keys (c : file_config) : list string :=
  match c.(cfg_keys) with
  | Some keys => keys
  | None => []
  end.

Definition log_events (evs : list event) (st : stream) : stream :=
  mk_stream st.(file_paths) st.(primary_keys) (st.(log) ++ evs)%list.

Section CSVStream.

(** [os.path.normpath], from the Python standard library. *)
Variable normpath : string -> string.
(** [self.name] and [self.file_config]. *)
Variable name : string.
Variable cfg : file_config.

(** The directory loop of [get_file_paths]. *)
Fixpoint collect (clean_file_path : string) (entries : list string)
    (acc : list string) : M (list string) :=
  match entries with
  | [] => ret acc
  | filename :: entries' =>
      let file_path := clean_file_path ++ filename in
      b <- is_valid_filename file_path ;;
      collect clean_file_path entries'
              (if b then (acc ++ [file_path])%list else acc)
  end.

Definition no_files_msg : string :=
  "Stream '" ++ name ++ "' has no acceptable files. "
  ++ "                    See warning for more detail.".

(** [get_file_paths].  [os.listdir] of the directory is the entry list of
    its node. *)
Definition get_file_paths (fs : filesystem) : M (list string) :=
  st <- get_state ;;
  match st.(file_paths) with
  | _ :: _ => ret st.(file_paths)
  | [] =>
      let file_path := cfg.(cfg_path) in
      match fs file_path with
      | None => raise (Exception ("File path does not exist " ++ file_path))
      | Some nd =>
          file_paths <-
            match nd with
            | DirNode entries =>
                collect (normpath file_path ++ "/") entries []
            | FileNode _ =>
                b <- is_valid_filename file_path ;;
                ret (if b then [file_path] else [])
            end ;;
          match file_paths with
          | [] => raise (Exception no_files_msg)
          | _ :: _ => _ <- set_file_paths file_paths ;; ret file_paths
          end
      end
  end.

(** The outer loop of [get_records] over the resolved paths.  The result is
    the transcript of the generator: the records it yields, the exception
    that ends it (if any), and the final state. *)
Fixpoint records_files (fs : filesystem) (paths : list string) (st : stream)
  : list record * option exc * stream :=
  match paths with
  | [] => ([], None, st)
  | file_path :: paths' =>
      match get_rows fs file_path with
      | inl e => ([], Some e, st)
      | inr (o, rows) =>
          let st1 := log_events (Opened file_path o
                                 :: map (fun _ => RowRead file_path) rows) st in
          let '(recs, e, st2) := records_files fs paths' st1 in
          ((file_records [] rows ++ recs)%list, e, st2)
      end
  end.

Definition get_records (fs : filesystem) (st : stream)
  : list record * option exc * stream :=
  match get_file_paths fs st with
  | (inl e, st') => ([], Some e, st')
  | (inr paths, st') => records_files fs paths st'
  end.

(** The [schema] property, up to the final
    [th.PropertiesList(...).to_dict()] of [singer_sdk]: the list
    of properties it is built from.  The double loop with [break]s binds
    [header] to the first row of the first file, or leaves it unbound. *)
Definition schema (fs : filesystem) : M (list property) :=
  _ <- set_primary_keys (config_keys cfg) ;;
  paths <- get_file_paths fs ;;
  match paths with
  | [] => raise (UnboundLocalError "header")
  | file_path :: _ =>
      match get_rows fs file_path with
      | inl e => raise e
      | inr (o, rows) =>
          _ <- emit (Opened file_path o) ;;
          match rows with
          | [] => raise (UnboundLocalError "header")
          | header :: _ =>
              _ <- emit (RowRead file_path) ;;
              ret (map (fun column => (column, StringType)) header)
          end
      end
  end.

(** The candidates [get_file_paths] tests with [is_valid_filename] when the
    configured path is the node [nd]. *)
Definition candidates (nd : node) : list string :=
  match nd with
  | DirNode entries => map (String.append (normpath cfg.(cfg_path) ++ "/")) entries
  | FileNode _ => [cfg.(cfg_path)]
  end.

End CSVStream.

(** ** Reference descriptions used in the statements *)

Definition valid_name (p : string) : bool :=
  check_exts (lower p) supported_extensions.

Definition is_warning (ev : event) : bool :=
  match ev with
  | Warning _ => true
  | _ => false
  end.

(** Leading empty rows ([[]], what [csv.reader] gives for a blank line). *)
Fixpoint drop_empty (rows : list row) : list row :=
  match rows with
  | [] :: rows' => drop_empty rows'
  | _ => rows
  end.

(** The header a file's records are keyed by: its first non-empty row. *)
Definition file_header (rows : list row) : row :=
  match drop_empty rows with
  | [] => []
  | h :: _ => h
  end.

(** Header = first non-empty row, one record per later row. *)
Definition header_records (rows : list row) : list record :=
  match drop_empty rows with
  | [] => []
  | h :: data => map (zip_dict h) data
  end.

(** The records of a file as the spec sentence of claim C1 reads: header =
    first row, one record per later row. *)
Definition spec_file_records (rows : list row) : list record :=
  match rows with
  | [] => []
  | h :: data => map (zip_dict h) data
  end.

(** Python's [dict.get(k)] on a record. *)
Fixpoint lookup (k : string) (d : record) : option string :=
  match d with
  | [] => None
  | (k', v) :: d' => if String.eqb k k' then Some v else lookup k d'
  end.

(** The value of the last pair with key [k]: what [dict(pairs)] keeps. *)
Definition last_assoc (k : string) (pairs : list (string * string))
  : option string :=
  fold_left (fun acc kv => if String.eqb k (fst kv) then Some (snd kv) else acc)
            pairs None.

(** ** Concrete file systems *)

Fixpoint fs_of (entries : list (string * node)) : filesystem :=
  fun p => match entries with
           | [] => None
           | (q, nd) :: entries' => if String.eqb p q then Some nd
                                    else fs_of entries' p
           end.

(** Nothing exists. *)
Definition fs_missing : filesystem := fs_of [].

(** A directory holding only a text file. *)
Definition fs_txt : filesystem :=
  fs_of [("d", DirNode ["readme.txt"]); ("d/readme.txt", FileNode [["x"]])].

(** A directory before and after a second CSV file is added to it. *)
Definition fs_one : filesystem :=
  fs_of [("d", DirNode ["a.csv"]);
         ("d/a.csv", FileNode [["id"; "name"]; ["1"; "Ann"]])].
Definition fs_one_more : filesystem :=
  fs_of [("d", DirNode ["a.csv"; "b.csv"]);
         ("d/a.csv", FileNode [["id"; "name"]; ["1"; "Ann"]]);
         ("d/b.csv", FileNode [["id"; "name"]; ["2"; "Bo"]])].

(** A subdirectory named like a CSV file. *)
Definition fs_subdir : filesystem :=
  fs_of [("d", DirNode ["data.csv"; "notes"]);
         ("d/data.csv", DirNode ["x.csv"]);
         ("d/notes", FileNode [])].

(** A CSV file starting with a blank line. *)
Definition fs_blank : filesystem :=
  fs_of [("a.csv", FileNode [[]; ["id"]; ["1"]])].

(** Two files with different headers. *)
Definition fs_two : filesystem :=
  fs_of [("d", DirNode ["a.csv"; "b.CSV.GZ"]);
         ("d/a.csv", FileNode [["id"; "name"]; ["1"; "Ann"]; ["2"; "Bo"]]);
         ("d/b.CSV.GZ", FileNode [["sku"; "qty"]; ["x"; "3"]])].

(** An empty CSV file. *)
Definition fs_empty : filesystem :=
  fs_of [("e.csv", FileNode [])].

(** A directory whose second CSV-named entry is a subdirectory. *)
Definition fs_mixed : filesystem :=
  fs_of [("d", DirNode ["a.csv"; "sub.csv"; "b.csv"]);
         ("d/a.csv", FileNode [["id"]; ["1"]; ["2"]]);
         ("d/sub.csv", DirNode []);
         ("d/b.csv", FileNode [["id"]; ["3"]])].

Definition id_normpath (p : string) : string := p.

(** * Properties *)

(** ** Strings *)

Lemma list_ascii_of_string_app (a b : string) :
  list_ascii_of_string (a ++ b) = (list_ascii_of_string a ++ list_ascii_of_string b)%list.
Proof. induction a as [|c a IH]; simpl; [reflexivity | now rewrite IH]. Qed.

Lemma append_assoc (a b c : string) : (a ++ b) ++ c = a ++ b ++ c.
Proof. induction a as [|x a IH]; simpl; [reflexivity | now rewrite IH]. Qed.

Lemma lower_app (a b : string) : lower (a ++ b) = lower a ++ lower b.
Proof. induction a as [|c a IH]; simpl; [reflexivity | now rewrite IH]. Qed.

Lemma prefixb_app (p l l' : list ascii) :
  prefixb p l = true -> prefixb p (l ++ l')%list = true.
Proof.
  revert l; induction p as [|a p IH]; intros [|b l] H; simpl in *; try easy.
  apply andb_prop in H as [H1 H2]; rewrite H1; simpl; auto.
Qed.

(** A suffix of [b] is a suffix of [a ++ b]. *)
Lemma endswith_app (a b suf : string) :
  endswith b suf = true -> endswith (a ++ b) suf = true.
Proof.
  unfold endswith; rewrite list_ascii_of_string_app, rev_app_distr.
  apply prefixb_app.
Qed.

Lemma prefixb_comparable (p q l : list ascii) :
  prefixb p l = true -> prefixb q l = true -> prefixb p q || prefixb q p = true.
Proof.
  revert q l; induction p as [|a p IH]; intros [|b q] [|c l] Hp Hq; simpl in *;
    try easy.
  apply andb_prop in Hp as [Ha Hp]; apply andb_prop in Hq as [Hb Hq].
  apply Ascii.eqb_eq in Ha, Hb; subst a b.
  rewrite Ascii.eqb_refl; simpl; eapply IH; eauto.
Qed.

(** Two suffixes of one string: one is a suffix of the other. *)
Lemma endswith_comparable (s suf1 suf2 : string) :
  endswith s suf1 = true -> endswith s suf2 = true ->
  endswith suf2 suf1 || endswith suf1 suf2 = true.
Proof. unfold endswith; apply prefixb_comparable. Qed.

Ltac suffix_clash H1 H2 :=
  let C := fresh "C" in
  pose proof (endswith_comparable _ _ _ H1 H2) as C; vm_compute in C;
  discriminate C.

(** ** [is_valid_filename] *)

Lemma check_exts_existsb (p : string) (exts : list string) :
  check_exts p exts = existsb (endswith p) exts.
Proof.
  induction exts as [|e exts IH]; simpl; [reflexivity|].
  destruct (endswith p e); simpl; auto.
Qed.

Lemma log_events_app (a b : list event) (st : stream) :
  log_events b (log_events a st) = log_events (a ++ b)%list st.
Proof. destruct st; unfold log_events; simpl; now rewrite app_assoc. Qed.

Lemma log_events_nil (st : stream) : log_events [] st = st.
Proof. destruct st; unfold log_events; simpl; now rewrite app_nil_r. Qed.

Definition skip_warnings (p : string) : list event :=
  [Warning ("Skipping non-csv file '" ++ lower p ++ "'");
   Warning ("Please provide a CSV file with any of supported extensions: "
            ++ join ", " supported_extensions)].

Lemma is_valid_filename_eq (p : string) (st : stream) :
  is_valid_filename p st =
  (inr (valid_name p), if valid_name p then st else log_events (skip_warnings p) st).
Proof.
  unfold is_valid_filename, valid_name.
  destruct (check_exts (lower p) supported_extensions); [reflexivity|].
  unfold bind, emit, ret; simpl. destruct st; unfold log_events; simpl.
  now rewrite <- app_assoc.
Qed.

(** C4: the filter accepts a path iff its lowercased form ends with one of
    the five extensions; a rejected path logs two warnings and returns
    [False] without raising. *)
Theorem is_valid_filename_extensions (p : string) (st : stream) :
  exists b st',
    is_valid_filename p st = (inr b, st') /\
    (b = true <-> exists ext,
        In ext [".csv"; ".csv.gz"; ".csv.bz2"; ".csv.xz"; ".csv.lzma"] /\
        endswith (lower p) ext = true) /\
    (b = true -> st' = st) /\
    (b = false ->
     st' = log_events
             [Warning ("Skipping non-csv file '" ++ lower p ++ "'");
              Warning ("Please provide a CSV file with any of supported extensions: "
                       ++ ".csv, .csv.gz, .csv.bz2, .csv.xz, .csv.lzma")] st).
Proof.
  rewrite is_valid_filename_eq.
  eexists _, _; split; [reflexivity|].
  unfold valid_name; rewrite check_exts_existsb.
  split; [apply existsb_exists|]. split.
  - intros ->; reflexivity.
  - intros ->; reflexivity.
Qed.

(** ** [get_rows] *)

(** C8: the opener is chosen from the lowercased suffix only. *)
Theorem get_rows_opener_by_suffix (p : string) :
  (endswith (lower p) ".gz" = true -> get_rows_opener p = gzip_open) /\
  (endswith (lower p) ".bz2" = true -> get_rows_opener p = bz2_open) /\
  (endswith (lower p) ".xz" = true \/ endswith (lower p) ".lzma" = true ->
   get_rows_opener p = lzma_open) /\
  (endswith (lower p) ".gz" = false -> endswith (lower p) ".bz2" = false ->
   endswith (lower p) ".xz" = false -> endswith (lower p) ".lzma" = false ->
   get_rows_opener p = builtin_open) /\
  (forall q, lower q = lower p -> get_rows_opener q = get_rows_opener p) /\
  (forall fs o rows, get_rows fs p = inr (o, rows) -> o = get_rows_opener p).
Proof.
  unfold get_rows_opener.
  repeat split.
  - intros H; now rewrite H.
  - intros H.
    destruct (endswith (lower p) ".gz") eqn:G; [suffix_clash H G|].
    now rewrite H.
  - intros H.
    destruct (endswith (lower p) ".gz") eqn:G;
      [destruct H as [H|H]; suffix_clash H G|].
    destruct (endswith (lower p) ".bz2") eqn:B;
      [destruct H as [H|H]; suffix_clash H B|].
    destruct H as [H|H]; rewrite H; [reflexivity|now rewrite orb_true_r].
  - intros G B X L; now rewrite G, B, X, L.
  - intros q E; now rewrite E.
  - intros fs o rows; unfold get_rows, get_rows_opener.
    destruct (fs p) as [[]|]; congruence.
Qed.

(** ** Records: [dict(zip(headers, row))] *)

Lemma lookup_dict_set (d : record) (k k' v : string) :
  lookup k (dict_set d k' v) = if String.eqb k k' then Some v else lookup k d.
Proof.
  induction d as [|[k'' v''] d IH]; simpl; [reflexivity|].
  destruct (String.eqb_spec k' k'') as [->|Hne]; simpl.
  - destruct (String.eqb k k''); reflexivity.
  - rewrite IH.
    destruct (String.eqb_spec k k'') as [->|]; [|reflexivity].
    destruct (String.eqb_spec k'' k') as [->|]; [congruence|reflexivity].
Qed.

Lemma lookup_fold_dict_set (pairs : list (string * string)) (d : record) (k : string) :
  lookup k (fold_left (fun d kv => dict_set d (fst kv) (snd kv)) pairs d) =
  fold_left (fun acc kv => if String.eqb k (fst kv) then Some (snd kv) else acc)
            pairs (lookup k d).
Proof.
  revert d; induction pairs as [|kv pairs IH]; intros d; simpl; [reflexivity|].
  now rewrite IH, lookup_dict_set.
Qed.

Lemma lookup_dict (pairs : list (string * string)) (k : string) :
  lookup k (dict pairs) = last_assoc k pairs.
Proof. apply lookup_fold_dict_set. Qed.

Lemma lookup_in_keys (d : record) (k : string) :
  lookup k d <> None <-> In k (map fst d).
Proof.
  induction d as [|[k' v] d IH]; simpl; [tauto|].
  destruct (String.eqb_spec k k') as [->|Hne].
  - split; [auto | discriminate].
  - rewrite IH; split; [auto|intros [->|H]; [congruence|exact H]].
Qed.

Lemma last_assoc_fold (pairs : list (string * string)) (k : string) acc :
  fold_left (fun acc kv => if String.eqb k (fst kv) then Some (snd kv) else acc)
            pairs acc <> None <-> acc <> None \/ In k (map fst pairs).
Proof.
  revert acc; induction pairs as [|[k' v] pairs IH]; intros acc; simpl.
  - tauto.
  - rewrite IH. destruct (String.eqb_spec k k') as [->|Hne].
    + split; [auto|intros _; left; discriminate].
    + split; [intros [H|H]; auto|intros [H|[H|H]]; auto; congruence].
Qed.

Lemma dict_keys (pairs : list (string * string)) (k : string) :
  In k (map fst (dict pairs)) <-> In k (map fst pairs).
Proof.
  rewrite <- lookup_in_keys, lookup_dict; unfold last_assoc.
  rewrite last_assoc_fold; tauto.
Qed.

Lemma map_fst_combine {A B} (h : list A) (r : list B) :
  map fst (combine h r) = firstn (length r) h.
Proof.
  revert r; induction h as [|x h IH]; intros [|y r]; simpl; auto.
  now rewrite IH.
Qed.

(** C2: pairing is positional and stops at the shorter sequence: only the
    first [length row] header names become keys, only the first
    [length header] values are used, each key holds the value at its last
    position among those, and building the record is total. *)
Theorem zip_dict_shorter (headers r : row) :
  zip_dict headers r = dict (combine (firstn (length r) headers) r) /\
  zip_dict headers r = dict (combine headers (firstn (length headers) r)) /\
  (forall k, In k (map fst (zip_dict headers r)) <->
             In k (firstn (length r) headers)) /\
  (forall k, lookup k (zip_dict headers r) = last_assoc k (combine headers r)).
Proof.
  unfold zip_dict; split; [|split; [|split]].
  - now rewrite <- combine_firstn_r.
  - now rewrite <- combine_firstn_l.
  - intros k; rewrite dict_keys, map_fst_combine; tauto.
  - intros k; apply lookup_dict.
Qed.

(** ** [get_file_paths] *)

Section GetFilePaths.

Variable normpath : string -> string.
Variable name : string.
Variable cfg : file_config.

Lemma collect_eq (clean : string) (entries acc : list string) (st : stream) :
  exists ws, forallb is_warning ws = true /\
    collect clean entries acc st =
    (inr (acc ++ filter valid_name (map (String.append clean) entries))%list,
     log_events ws st).
Proof.
  revert acc st; induction entries as [|f entries IH]; intros acc st; simpl.
  - exists []; rewrite app_nil_r, log_events_nil; auto.
  - unfold bind; rewrite is_valid_filename_eq.
    destruct (valid_name (clean ++ f)) eqn:V.
    + destruct (IH (app acc [String.append clean f]) st) as [ws [Hw ->]].
      exists ws; now rewrite <- app_assoc.
    + destruct (IH acc (log_events (skip_warnings (clean ++ f)) st)) as [ws [Hw ->]].
      exists (skip_warnings (clean ++ f) ++ ws)%list.
      now rewrite log_events_app.
Qed.

Lemma get_file_paths_cached (fs : filesystem) (st : stream) :
  st.(file_paths) <> [] ->
  get_file_paths normpath name cfg fs st = (inr st.(file_paths), st).
Proof.
  intros H; unfold get_file_paths, bind, get_state.
  destruct (file_paths st); [congruence|reflexivity].
Qed.

Lemma get_file_paths_missing (fs : filesystem) (st : stream) :
  st.(file_paths) = [] -> fs cfg.(cfg_path) = None ->
  get_file_paths normpath name cfg fs st =
  (inl (Exception ("File path does not exist " ++ cfg.(cfg_path))), st).
Proof.
  intros H F; unfold get_file_paths, bind, get_state.
  now rewrite H, F.
Qed.

Lemma get_file_paths_uncached (fs : filesystem) (st : stream) (nd : node) :
  st.(file_paths) = [] -> fs cfg.(cfg_path) = Some nd ->
  exists ws, forallb is_warning ws = true /\
    get_file_paths normpath name cfg fs st =
    match filter valid_name (candidates normpath cfg nd) with
    | [] => (inl (Exception (no_files_msg name)), log_events ws st)
    | l => (inr l, mk_stream l st.(primary_keys) (st.(log) ++ ws)%list)
    end.
Proof.
  intros H F; unfold get_file_paths, bind at 1, get_state.
  rewrite H, F; destruct nd as [rows|entries]; simpl.
  - unfold bind; rewrite is_valid_filename_eq.
    destruct (valid_name (cfg_path cfg)).
    + exists []; split; [reflexivity|].
      unfold ret, bind, set_file_paths; simpl; now rewrite app_nil_r.
    + exists (skip_warnings (cfg_path cfg)); split; reflexivity.
  - destruct (collect_eq (normpath (cfg_path cfg) ++ "/") entries [] st)
      as [ws [Hw Hc]].
    exists ws; split; [exact Hw|].
    unfold bind; rewrite Hc; simpl.
    destruct (filter valid_name _); reflexivity.
Qed.

End GetFilePaths.

(** C3 (as amended): with no list cached yet, a missing configured path
    raises a plain [Exception] before anything is listed, opened or logged,
    and an existing path with no candidate passing the filter raises a plain
    [Exception] (the same class) after the filter's warnings. *)
Theorem get_file_paths_failures (normpath : string -> string) (name : string)
    (cfg : file_config) (fs : filesystem) (st : stream) :
  st.(file_paths) = [] ->
  (fs cfg.(cfg_path) = None ->
   get_file_paths normpath name cfg fs st =
   (inl (Exception ("File path does not exist " ++ cfg.(cfg_path))), st)) /\
  (forall nd, fs cfg.(cfg_path) = Some nd ->
   filter valid_name (candidates normpath cfg nd) = [] ->
   exists ws, forallb is_warning ws = true /\
     get_file_paths normpath name cfg fs st =
     (inl (Exception ("Stream '" ++ name ++ "' has no acceptable files. "
                      ++ "                    See warning for more detail.")),
      log_events ws st)).
Proof.
  intros H; split.
  - intros F; now apply get_file_paths_missing.
  - intros nd F E.
    destruct (get_file_paths_uncached normpath name cfg fs st nd H F)
      as [ws [Hw Heq]].
    rewrite E in Heq; exists ws; split; assumption.
Qed.

(** C5: once [get_file_paths] has returned a list, later calls on the same
    instance return it again, with the state unchanged, whatever the file
    system has become. *)
Theorem get_file_paths_memoized (normpath : string -> string) (name : string)
    (cfg : file_config) (fs1 fs2 : filesystem) (st st' : stream)
    (l : list string) :
  get_file_paths normpath name cfg fs1 st = (inr l, st') ->
  get_file_paths normpath name cfg fs2 st' = (inr l, st').
Proof.
  intros H.
  destruct (file_paths st) as [|p ps] eqn:C.
  - destruct (fs1 (cfg_path cfg)) as [nd|] eqn:F.
    + destruct (get_file_paths_uncached normpath name cfg fs1 st nd C F)
        as [ws [_ Heq]].
      rewrite H in Heq.
      destruct (filter valid_name (candidates normpath cfg nd)) as [|q qs];
        [discriminate|].
      injection Heq as -> ->.
      now apply get_file_paths_cached.
    + rewrite (get_file_paths_missing normpath name cfg fs1 st C F) in H.
      discriminate.
  - rewrite (get_file_paths_cached normpath name cfg fs1 st) in H by congruence.
    injection H as <- <-.
    apply get_file_paths_cached; congruence.
Qed.

Lemma valid_name_app (a b : string) :
  valid_name b = true -> valid_name (a ++ b) = true.
Proof.
  unfold valid_name; rewrite !check_exts_existsb, !existsb_exists.
  intros [ext [Hin He]]; exists ext; split; [exact Hin|].
  rewrite lower_app; now apply endswith_app.
Qed.

(** C10: for a directory, the entries are filtered by name only: the result
    is the filtered entry paths, and an entry with a supported extension is
    resolved whatever kind of node it is. *)
Theorem get_file_paths_directory_by_name (normpath : string -> string)
    (name : string) (cfg : file_config) (fs : filesystem) (st : stream)
    (entries : list string) :
  st.(file_paths) = [] -> fs cfg.(cfg_path) = Some (DirNode entries) ->
  (forall l st', get_file_paths normpath name cfg fs st = (inr l, st') ->
   l = filter valid_name
         (map (String.append (normpath cfg.(cfg_path) ++ "/")) entries)) /\
  (forall f, In f entries -> valid_name f = true ->
   exists l st', get_file_paths normpath name cfg fs st = (inr l, st') /\
     In (normpath cfg.(cfg_path) ++ "/" ++ f) l).
Proof.
  intros C F.
  destruct (get_file_paths_uncached normpath name cfg fs st _ C F)
    as [ws [_ Heq]].
  simpl in Heq; split.
  - intros l st' H; rewrite H in Heq.
    destruct (filter valid_name _); [discriminate|].
    now injection Heq as ->.
  - intros f Hin V.
    assert (Hf : In (normpath (cfg_path cfg) ++ "/" ++ f)
              (filter valid_name
                 (map (String.append (normpath (cfg_path cfg) ++ "/")) entries))).
    { apply filter_In; split.
      - rewrite <- append_assoc; now apply in_map.
      - apply valid_name_app, valid_name_app, V. }
    destruct (filter valid_name _) as [|q qs]; [contradiction|].
    eexists _, _; split; [exact Heq|exact Hf].
Qed.

(** ** [get_records] *)

Lemma file_records_headers (headers : row) (rows : list row) :
  headers <> [] -> file_records headers rows = map (zip_dict headers) rows.
Proof.
  intros H; induction rows as [|r rows IH]; simpl; [reflexivity|].
  destruct headers; [congruence|]; now rewrite IH.
Qed.

(** Starting from [headers = []], a file's records are [header_records]. *)
Lemma file_records_start (rows : list row) :
  file_records [] rows = header_records rows.
Proof.
  unfold header_records; induction rows as [|r rows IH]; simpl; [reflexivity|].
  destruct r as [|c cs]; [exact IH|].
  apply file_records_headers; discriminate.
Qed.

Lemma records_files_origin (fs : filesystem) (paths : list string)
    (st : stream) (rec : record) :
  In rec (fst (fst (records_files fs paths st))) ->
  exists p rows, In p paths /\ fs p = Some (FileNode rows) /\
                 In rec (header_records rows).
Proof.
  revert st; induction paths as [|p paths IH]; intros st H; simpl in *;
    [contradiction|].
  unfold get_rows in H.
  destruct (fs p) as [[rows|entries]|] eqn:F; simpl in H; try contradiction.
  destruct (records_files fs paths _) as [[recs e] st2] eqn:R; simpl in H.
  apply in_app_or in H as [H|H].
  - exists p, rows; rewrite <- file_records_start; auto.
  - edestruct IH as (q & rows' & ? & ? & ?); [rewrite R; exact H|].
    exists q, rows'; auto.
Qed.

Lemma header_records_keys (rows : list row) (rec : record) (k : string) :
  In rec (header_records rows) -> In k (map fst rec) -> In k (file_header rows).
Proof.
  unfold header_records, file_header.
  destruct (drop_empty rows) as [|h data]; [contradiction|].
  intros Hr Hk; apply in_map_iff in Hr as (r & <- & _).
  apply (proj1 (proj2 (proj2 (zip_dict_shorter h r))) k) in Hk.
  rewrite <- (firstn_skipn (length r) h); apply in_or_app; auto.
Qed.

(** C7: every record [get_records] yields comes from one resolved file and
    has its keys among that file's own header. *)
Theorem get_records_header_scoped (normpath : string -> string) (name : string)
    (cfg : file_config) (fs : filesystem) (st : stream) (rec : record) :
  In rec (fst (fst (get_records normpath name cfg fs st))) ->
  exists paths st' p rows,
    get_file_paths normpath name cfg fs st = (inr paths, st') /\
    In p paths /\ fs p = Some (FileNode rows) /\
    In rec (header_records rows) /\
    (forall k, In k (map fst rec) -> In k (file_header rows)).
Proof.
  unfold get_records.
  destruct (get_file_paths normpath name cfg fs st) as [[e|paths] st'] eqn:G;
    simpl; [contradiction|].
  intros H; destruct (records_files_origin fs paths st' rec H)
    as (p & rows & Hp & Hf & Hr).
  exists paths, st', p, rows; repeat split; auto.
  intros k; now apply header_records_keys.
Qed.

(** ** [schema] *)

Lemma get_file_paths_effects (normpath : string -> string) (name : string)
    (cfg : file_config) (fs : filesystem) (st : stream) :
  (snd (get_file_paths normpath name cfg fs st)).(primary_keys) = st.(primary_keys) /\
  exists ws, forallb is_warning ws = true /\
    (snd (get_file_paths normpath name cfg fs st)).(log) = (st.(log) ++ ws)%list.
Proof.
  destruct (file_paths st) as [|p ps] eqn:C.
  - destruct (fs (cfg_path cfg)) as [nd|] eqn:F.
    + destruct (get_file_paths_uncached normpath name cfg fs st nd C F)
        as [ws [Hw ->]].
      destruct (filter valid_name _); simpl; (split; [|exists ws; split]);
        auto; destruct st; reflexivity.
    + rewrite (get_file_paths_missing normpath name cfg fs st C F); simpl.
      split; [reflexivity|]; exists []; now rewrite app_nil_r.
  - rewrite get_file_paths_cached by congruence; simpl.
    split; [reflexivity|]; exists []; now rewrite app_nil_r.
Qed.

(** [schema] step by step: assign [primary_keys], resolve, open the first
    path, read its first row. *)
Lemma schema_eq (normpath : string -> string) (name : string)
    (cfg : file_config) (fs : filesystem) (st : stream) :
  schema normpath name cfg fs st =
  match get_file_paths normpath name cfg fs
          (mk_stream st.(file_paths) (Some (config_keys cfg)) st.(log)) with
  | (inl e, st1) => (inl e, st1)
  | (inr [], st1) => (inl (UnboundLocalError "header"), st1)
  | (inr (p :: _), st1) =>
      match get_rows fs p with
      | inl e => (inl e, st1)
      | inr (o, []) =>
          (inl (UnboundLocalError "header"), log_events [Opened p o] st1)
      | inr (o, header :: _) =>
          (inr (map (fun column => (column, StringType)) header),
           log_events [Opened p o; RowRead p] st1)
      end
  end.
Proof.
  unfold schema, bind, set_primary_keys; simpl.
  destruct (get_file_paths _ _ _ _ _) as [[e|[|p ps]] st1]; try reflexivity.
  destruct (get_rows fs p) as [e|[o [|header rest]]]; try reflexivity.
  unfold emit, ret, log_events; simpl; now rewrite <- app_assoc.
Qed.

Lemma get_rows_file (fs : filesystem) (p : string) (rows : list row) :
  fs p = Some (FileNode rows) -> get_rows fs p = inr (get_rows_opener p, rows).
Proof. intros F; unfold get_rows; now rewrite F. Qed.

(** C6: [schema] sets [primary_keys] from the [keys] entry (default [[]])
    whatever happens next; when it returns, it has resolved the paths
    (which logs warnings only), opened the first path only, read its first
    row only, and returned one string-typed property per field of that row,
    in order. *)
Theorem schema_first_row (normpath : string -> string) (name : string)
    (cfg : file_config) (fs : filesystem) (st : stream) :
  (snd (schema normpath name cfg fs st)).(primary_keys) =
    Some (match cfg.(cfg_keys) with Some keys => keys | None => [] end) /\
  (forall props st', schema normpath name cfg fs st = (inr props, st') ->
   exists p ps header rest st1 ws,
     get_file_paths normpath name cfg fs
       (mk_stream st.(file_paths) (Some (config_keys cfg)) st.(log))
       = (inr (p :: ps), st1) /\
     fs p = Some (FileNode (header :: rest)) /\
     props = map (fun column => (column, StringType)) header /\
     st' = log_events [Opened p (get_rows_opener p); RowRead p] st1 /\
     st1.(log) = (st.(log) ++ ws)%list /\ forallb is_warning ws = true).
Proof.
  rewrite schema_eq.
  pose proof (get_file_paths_effects normpath name cfg fs
                (mk_stream st.(file_paths) (Some (config_keys cfg)) st.(log)))
    as [Hpk (ws & Hw & Hlog)].
  destruct (get_file_paths _ _ _ _ _) as [[e|[|p ps]] st1]; simpl in Hpk, Hlog.
  - split; [exact Hpk|discriminate].
  - split; [exact Hpk|discriminate].
  - unfold get_rows.
    destruct (fs p) as [[[|header rest]|entries]|] eqn:F; simpl;
      (split; [destruct st1; exact Hpk|]); try discriminate.
    intros props st' E; injection E as <- <-.
    exists p, ps, header, rest, st1, ws; auto 7.
Qed.

(** C9: when the first resolved file has no rows, [schema] returns no
    schema: it raises [UnboundLocalError] on [header], a [NameError]. *)
Theorem schema_empty_first_file (normpath : string -> string) (name : string)
    (cfg : file_config) (fs : filesystem) (st st1 : stream)
    (p : string) (ps : list string) :
  get_file_paths normpath name cfg fs
    (mk_stream st.(file_paths) (Some (config_keys cfg)) st.(log))
    = (inr (p :: ps), st1) ->
  fs p = Some (FileNode []) ->
  schema normpath name cfg fs st =
    (inl (UnboundLocalError "header"), log_events [Opened p (get_rows_opener p)] st1) /\
  is_NameError (UnboundLocalError "header") = true.
Proof.
  intros G F; rewrite schema_eq, G, (get_rows_file fs p [] F).
  split; reflexivity.
Qed.

(** ** Instances on concrete file systems *)

Definition rows_in (fs : filesystem) (p : string) : list row :=
  match fs p with
  | Some (FileNode rows) => rows
  | _ => []
  end.

(** C1: on a file that starts with a blank line ([csv.reader] gives [[]]),
    the [if not headers] test does not take that first row as the header:
    the code skips it and keys the records by the next row, where the first
    row read should be the header (as [schema] takes it). *)
Lemma get_records_blank_first_row :
  fst (fst (get_records id_normpath "s" (mk_config "a.csv" None) fs_blank
              init_stream)) = [[("id", "1")]] /\
  spec_file_records (rows_in fs_blank "a.csv") = [[]; []] /\
  fst (fst (get_records id_normpath "s" (mk_config "a.csv" None) fs_blank
              init_stream)) <>
  concat (map (fun p => spec_file_records (rows_in fs_blank p)) ["a.csv"]).
Proof.
  split; [reflexivity|split; [reflexivity|]].
  intros H; vm_compute in H; discriminate H.
Qed.

Lemma zip_dict_shorter_witness :
  ~ In "c" (map fst (zip_dict ["a"; "b"; "c"] ["1"])) /\
  zip_dict ["a"] ["1"; "2"] = dict (combine ["a"] ["1"]).
Proof.
  split.
  - intros H.
    apply (proj1 (proj2 (proj2 (zip_dict_shorter ["a"; "b"; "c"] ["1"]))) "c") in H.
    simpl in H; destruct H as [H|[]]; discriminate H.
  - apply (proj1 (proj2 (zip_dict_shorter ["a"] ["1"; "2"]))).
Defined.

(** C3 as stated fails: both failures raise the same class, the plain
    [Exception], neither a [ConfigurationError] nor an [EmptyResultError]. *)
Lemma get_file_paths_plain_exceptions :
  exists e1 e2 st1 st2,
    get_file_paths id_normpath "s" (mk_config "missing.csv" None) fs_missing
      init_stream = (inl e1, st1) /\
    get_file_paths id_normpath "s" (mk_config "d" None) fs_txt
      init_stream = (inl e2, st2) /\
    exc_class e1 = "Exception" /\ exc_class e2 = "Exception" /\
    exc_class e1 <> "ConfigurationError" /\ exc_class e2 <> "EmptyResultError".
Proof.
  exists (Exception "File path does not exist missing.csv"),
         (Exception (no_files_msg "s")), init_stream,
         (snd (get_file_paths id_normpath "s" (mk_config "d" None) fs_txt
                 init_stream)).
  split; [reflexivity|split; [reflexivity|]].
  repeat split; simpl; discriminate.
Qed.

Lemma get_file_paths_failures_witness :
  get_file_paths id_normpath "s" (mk_config "missing.csv" None) fs_missing
    init_stream =
  (inl (Exception "File path does not exist missing.csv"), init_stream) /\
  exists ws, forallb is_warning ws = true /\
    get_file_paths id_normpath "s" (mk_config "d" None) fs_txt init_stream =
    (inl (Exception ("Stream 's' has no acceptable files. "
                     ++ "                    See warning for more detail.")),
     log_events ws init_stream).
Proof.
  split.
  - apply (proj1 (get_file_paths_failures id_normpath "s"
                    (mk_config "missing.csv" None) fs_missing init_stream
                    eq_refl)).
    reflexivity.
  - apply (proj2 (get_file_paths_failures id_normpath "s" (mk_config "d" None)
                    fs_txt init_stream eq_refl) (DirNode ["readme.txt"]));
      reflexivity.
Defined.

Lemma is_valid_filename_extensions_witness :
  exists b st', is_valid_filename "B.CSV.GZ" init_stream = (inr b, st') /\
                b = true /\ st' = init_stream.
Proof.
  destruct (is_valid_filename_extensions "B.CSV.GZ" init_stream)
    as (b & st' & E & [_ H] & Ht & _).
  assert (B : b = true).
  { apply H; exists ".csv.gz"; split; [simpl; auto 6|reflexivity]. }
  exists b, st'; auto.
Defined.

Lemma get_file_paths_memoized_witness :
  fst (get_file_paths id_normpath "s" (mk_config "d" None) fs_one_more
         init_stream) = inr ["d/a.csv"; "d/b.csv"] /\
  get_file_paths id_normpath "s" (mk_config "d" None) fs_one_more
    (snd (get_file_paths id_normpath "s" (mk_config "d" None) fs_one init_stream)) =
  (inr ["d/a.csv"],
   snd (get_file_paths id_normpath "s" (mk_config "d" None) fs_one init_stream)).
Proof.
  split; [reflexivity|].
  apply (get_file_paths_memoized id_normpath "s" (mk_config "d" None)
           fs_one fs_one_more init_stream).
  reflexivity.
Defined.

Lemma get_rows_opener_by_suffix_witness :
  get_rows_opener "a.CSV.GZ" = gzip_open /\ get_rows_opener "b.csv.LZMA" = lzma_open.
Proof.
  split.
  - apply (proj1 (get_rows_opener_by_suffix "a.CSV.GZ")); reflexivity.
  - apply (proj1 (proj2 (proj2 (get_rows_opener_by_suffix "b.csv.LZMA")))).
    right; reflexivity.
Defined.

Lemma schema_first_row_witness :
  (snd (schema id_normpath "s" (mk_config "d" (Some ["id"])) fs_two
          init_stream)).(primary_keys) = Some ["id"] /\
  exists p ps header rest st1 ws,
    get_file_paths id_normpath "s" (mk_config "d" (Some ["id"])) fs_two
      (mk_stream init_stream.(file_paths)
         (Some (config_keys (mk_config "d" (Some ["id"])))) init_stream.(log))
      = (inr (p :: ps), st1) /\
    fs_two p = Some (FileNode (header :: rest)) /\
    [("id", StringType); ("name", StringType)] =
      map (fun column => (column, StringType)) header /\
    snd (schema id_normpath "s" (mk_config "d" (Some ["id"])) fs_two init_stream)
      = log_events [Opened p (get_rows_opener p); RowRead p] st1 /\
    st1.(log) = (init_stream.(log) ++ ws)%list /\ forallb is_warning ws = true.
Proof.
  split.
  - apply (proj1 (schema_first_row id_normpath "s" (mk_config "d" (Some ["id"]))
                    fs_two init_stream)).
  - apply (proj2 (schema_first_row id_normpath "s" (mk_config "d" (Some ["id"]))
                    fs_two init_stream)).
    reflexivity.
Defined.

Lemma get_records_header_scoped_witness :
  exists paths st' p rows,
    get_file_paths id_normpath "s" (mk_config "d" None) fs_two init_stream
      = (inr paths, st') /\
    In p paths /\ fs_two p = Some (FileNode rows) /\
    In [("sku", "x"); ("qty", "3")] (header_records rows) /\
    (forall k, In k (map fst [("sku", "x"); ("qty", "3")]) ->
               In k (file_header rows)).
Proof.
  apply (get_records_header_scoped id_normpath "s" (mk_config "d" None) fs_two
           init_stream [("sku", "x"); ("qty", "3")]).
  vm_compute; auto 10.
Defined.

Lemma schema_empty_first_file_witness :
  schema id_normpath "s" (mk_config "e.csv" None) fs_empty init_stream =
    (inl (UnboundLocalError "header"),
     log_events [Opened "e.csv" (get_rows_opener "e.csv")]
       (snd (get_file_paths id_normpath "s" (mk_config "e.csv" None) fs_empty
               (mk_stream [] (Some []) [])))) /\
  is_NameError (UnboundLocalError "header") = true.
Proof.
  apply (schema_empty_first_file id_normpath "s" (mk_config "e.csv" None)
           fs_empty init_stream
           (snd (get_file_paths id_normpath "s" (mk_config "e.csv" None) fs_empty
                   (mk_stream [] (Some []) [])))
           "e.csv" []); reflexivity.
Defined.

Lemma get_file_paths_directory_by_name_witness :
  fs_subdir "d/data.csv" = Some (DirNode ["x.csv"]) /\
  exists l st',
    get_file_paths id_normpath "s" (mk_config "d" None) fs_subdir init_stream
      = (inr l, st') /\ In ("d" ++ "/" ++ "data.csv") l.
Proof.
  split; [reflexivity|].
  apply (proj2 (get_file_paths_directory_by_name id_normpath "s"
                  (mk_config "d" None) fs_subdir init_stream ["data.csv"; "notes"]
                  eq_refl eq_refl) "data.csv").
  - simpl; auto.
  - reflexivity.
Defined.

(** * Further properties of [CSVStream] *)

(** ** Records with distinct header names *)

Lemma dict_set_fresh (d : record) (k v : string) :
  ~ In k (map fst d) -> dict_set d k v = (d ++ [(k, v)])%list.
Proof.
  induction d as [|[k' v'] d IH]; simpl; intros H; [reflexivity|].
  destruct (String.eqb_spec k k') as [->|Hne]; [exfalso; auto|].
  rewrite IH; auto.
Qed.

Lemma fold_dict_set_fresh (l d : list (string * string)) :
  NoDup (map fst d ++ map fst l)%list ->
  fold_left (fun d kv => dict_set d (fst kv) (snd kv)) l d = (d ++ l)%list.
Proof.
  revert d; induction l as [|[k v] l IH]; intros d H; simpl.
  - now rewrite app_nil_r.
  - rewrite dict_set_fresh.
    + rewrite IH, <- app_assoc; [reflexivity|].
      rewrite map_app, <- app_assoc; exact H.
    + intros Hin. simpl in H. apply NoDup_remove_2 in H.
      apply H, in_or_app; now left.
Qed.

Lemma NoDup_firstn_of {A} (n : nat) (l : list A) : NoDup l -> NoDup (firstn n l).
Proof.
  intros H; rewrite <- (firstn_skipn n l) in H.
  now apply NoDup_app_remove_r in H.
Qed.

(** X2: with distinct header names the record is exactly the positional
    pairs, in header order, cut at the shorter of header and row. *)
Theorem zip_dict_distinct (headers r : row) :
  NoDup headers -> zip_dict headers r = combine headers r.
Proof.
  intros H; unfold zip_dict, dict.
  apply fold_dict_set_fresh; simpl.
  rewrite map_fst_combine; now apply NoDup_firstn_of.
Qed.

Lemma lookup_combine_nth (headers r : row) (i : nat) :
  NoDup headers -> i < length headers -> i < length r ->
  lookup (nth i headers "") (combine headers r) = Some (nth i r "").
Proof.
  revert r i; induction headers as [|h hs IH]; intros [|x r] [|i] Hn Hi Hr;
    simpl in *; try lia.
  - now rewrite String.eqb_refl.
  - inversion Hn as [|? ? Hh Hd]; subst.
    destruct (String.eqb_spec (nth i hs "") h) as [E|E].
    + exfalso; apply Hh; rewrite <- E; apply nth_In; lia.
    + apply IH; auto; lia.
Qed.

(** X3: with distinct header names, looking up the [i]-th header name in
    the record gives the [i]-th field of the row, for every position both
    have. *)
Theorem zip_dict_lookup_nth (headers r : row) (i : nat) :
  NoDup headers -> i < length headers -> i < length r ->
  lookup (nth i headers "") (zip_dict headers r) = Some (nth i r "").
Proof.
  intros Hn Hi Hr; rewrite zip_dict_distinct by exact Hn.
  now apply lookup_combine_nth.
Qed.

(** X4: the number of records a file yields is the number of its rows after
    the leading blank rows, minus the header row (none when every row is
    blank). *)
Theorem file_records_count (rows : list row) :
  length (file_records [] rows) = length (drop_empty rows) - 1.
Proof.
  rewrite file_records_start; unfold header_records.
  destruct (drop_empty rows) as [|h data]; simpl; [reflexivity|].
  rewrite length_map; lia.
Qed.

(** ** Resolution: warnings, failures, single files *)

Definition rejected_warnings (candidates : list string) : list event :=
  concat (map skip_warnings (filter (fun p => negb (valid_name p)) candidates)).

Lemma collect_log (clean : string) (entries acc : list string) (st : stream) :
  collect clean entries acc st =
  (inr (acc ++ filter valid_name (map (String.append clean) entries))%list,
   log_events (rejected_warnings (map (String.append clean) entries)) st).
Proof.
  unfold rejected_warnings.
  revert acc st; induction entries as [|f entries IH]; intros acc st; simpl.
  - now rewrite app_nil_r, log_events_nil.
  - unfold bind; rewrite is_valid_filename_eq.
    destruct (valid_name (clean ++ f)) eqn:V; simpl.
    + now rewrite IH, <- app_assoc.
    + now rewrite IH, log_events_app.
Qed.

Lemma get_file_paths_uncached_log (normpath : string -> string) (name : string)
    (cfg : file_config) (fs : filesystem) (st : stream) (nd : node) :
  st.(file_paths) = [] -> fs cfg.(cfg_path) = Some nd ->
  get_file_paths normpath name cfg fs st =
  match filter valid_name (candidates normpath cfg nd) with
  | [] => (inl (Exception (no_files_msg name)),
           log_events (rejected_warnings (candidates normpath cfg nd)) st)
  | l => (inr l, mk_stream l st.(primary_keys)
                   (st.(log) ++ rejected_warnings (candidates normpath cfg nd))%list)
  end.
Proof.
  intros H F; unfold get_file_paths, bind at 1, get_state.
  rewrite H, F; destruct nd as [rows|entries]; simpl.
  - unfold bind; rewrite is_valid_filename_eq; unfold rejected_warnings; simpl.
    destruct (valid_name (cfg_path cfg)); simpl.
    + unfold ret, bind, set_file_paths; simpl; now rewrite !app_nil_r.
    + reflexivity.
  - unfold bind; rewrite collect_log; simpl.
    destruct (filter valid_name _); reflexivity.
Qed.

(** X5: resolving a path logs, in listing order, exactly two warnings per
    rejected candidate (naming its lowercased path and the accepted
    extensions) and nothing else; it opens no file. *)
Theorem get_file_paths_warnings (normpath : string -> string) (name : string)
    (cfg : file_config) (fs : filesystem) (st : stream) (nd : node) :
  st.(file_paths) = [] -> fs cfg.(cfg_path) = Some nd ->
  (snd (get_file_paths normpath name cfg fs st)).(log) =
  (st.(log) ++
   concat (map (fun p =>
     [Warning ("Skipping non-csv file '" ++ lower p ++ "'");
      Warning ("Please provide a CSV file with any of supported extensions: "
               ++ ".csv, .csv.gz, .csv.bz2, .csv.xz, .csv.lzma")])
     (filter (fun p => negb (valid_name p)) (candidates normpath cfg nd))))%list.
Proof.
  intros H F; rewrite (get_file_paths_uncached_log normpath name cfg fs st nd H F).
  destruct (filter valid_name _); reflexivity.
Qed.

(** X6: a failed resolution is not cached: the instance still holds no list,
    so the next call consults the file system again. *)
Theorem get_file_paths_failure_not_cached (normpath : string -> string)
    (name : string) (cfg : file_config) (fs : filesystem) (st st' : stream)
    (e : exc) :
  get_file_paths normpath name cfg fs st = (inl e, st') ->
  st.(file_paths) = [] /\ st'.(file_paths) = [] /\
  st'.(primary_keys) = st.(primary_keys).
Proof.
  intros G.
  destruct (file_paths st) as [|p ps] eqn:C.
  - destruct (fs (cfg_path cfg)) as [nd|] eqn:F.
    + rewrite (get_file_paths_uncached_log normpath name cfg fs st nd C F) in G.
      destruct (filter valid_name _); [|discriminate].
      injection G as _ <-; destruct st; simpl in *; auto.
    + rewrite (get_file_paths_missing normpath name cfg fs st C F) in G.
      injection G as _ <-; auto.
  - rewrite get_file_paths_cached in G by congruence; discriminate.
Qed.

(** X7: a configured regular file is resolved to itself, spelled as
    configured, when its name passes the filter; otherwise resolution raises
    the no-acceptable-files [Exception] after the two warnings. *)
Theorem get_file_paths_single_file (normpath : string -> string) (name : string)
    (cfg : file_config) (fs : filesystem) (st : stream) (rows : list row) :
  st.(file_paths) = [] -> fs cfg.(cfg_path) = Some (FileNode rows) ->
  (valid_name cfg.(cfg_path) = true ->
   get_file_paths normpath name cfg fs st =
   (inr [cfg.(cfg_path)], mk_stream [cfg.(cfg_path)] st.(primary_keys) st.(log))) /\
  (valid_name cfg.(cfg_path) = false ->
   get_file_paths normpath name cfg fs st =
   (inl (Exception (no_files_msg name)),
    log_events (skip_warnings cfg.(cfg_path)) st)).
Proof.
  intros H F; rewrite (get_file_paths_uncached_log normpath name cfg fs st _ H F).
  unfold rejected_warnings; simpl.
  split; intros V; rewrite V; simpl; [now rewrite !app_nil_r|reflexivity].
Qed.

(** X8: a resolved list is never empty and every path in it passes the
    extension filter; it is what the instance then holds. *)
Theorem get_file_paths_result_valid (normpath : string -> string)
    (name : string) (cfg : file_config) (fs : filesystem) (st st' : stream)
    (l : list string) :
  st.(file_paths) = [] ->
  get_file_paths normpath name cfg fs st = (inr l, st') ->
  l <> [] /\ st'.(file_paths) = l /\ (forall p, In p l -> valid_name p = true).
Proof.
  intros C G.
  destruct (fs (cfg_path cfg)) as [nd|] eqn:F.
  - rewrite (get_file_paths_uncached_log normpath name cfg fs st nd C F) in G.
    destruct (filter valid_name (candidates normpath cfg nd)) as [|q qs] eqn:E;
      [discriminate|].
    injection G as <- <-; split; [discriminate|split; [reflexivity|]].
    intros p Hp; rewrite <- E in Hp; now apply filter_In in Hp.
  - rewrite (get_file_paths_missing normpath name cfg fs st C F) in G; discriminate.
Qed.

(** ** Record production: errors, effects, composition with [schema] *)

Lemma records_files_prefix_error (fs : filesystem) (pre post : list string)
    (q : string) (rows_of : string -> list row) (e : exc) (st : stream) :
  (forall p, In p pre -> fs p = Some (FileNode (rows_of p))) ->
  get_rows fs q = inl e ->
  records_files fs (pre ++ q :: post) st =
  (concat (map (fun p => header_records (rows_of p)) pre), Some e,
   log_events (concat (map (fun p => Opened p (get_rows_opener p)
                                      :: map (fun _ => RowRead p) (rows_of p))
                           pre)) st).
Proof.
  revert st; induction pre as [|p pre IH]; intros st H Q; simpl.
  - now rewrite Q, log_events_nil.
  - unfold get_rows at 1; rewrite (H p (or_introl eq_refl)).
    rewrite (IH _ (fun x Hx => H x (or_intror Hx)) Q); cbv beta iota.
    rewrite file_records_start, log_events_app; reflexivity.
Qed.


(** X9: [get_records] stops at the first resolved path that cannot be opened
    (a directory, or a file gone since resolution): it has yielded exactly
    the records of the files before it, then raises the opening error; its
    only effects are opening and reading the files before it, so neither
    that path nor any later one is opened or read. *)
Theorem get_records_stops_at_open_error (normpath : string -> string)
    (name : string) (cfg : file_config) (fs : filesystem) (st st' : stream)
    (pre post : list string) (q : string) (rows_of : string -> list row)
    (e : exc) :
  get_file_paths normpath name cfg fs st = (inr (pre ++ q :: post)%list, st') ->
  (forall p, In p pre -> fs p = Some (FileNode (rows_of p))) ->
  get_rows fs q = inl e ->
  get_records normpath name cfg fs st =
  (concat (map (fun p => header_records (rows_of p)) pre), Some e,
   log_events (concat (map (fun p => Opened p (get_rows_opener p)
                                      :: map (fun _ => RowRead p) (rows_of p))
                           pre)) st').
Proof.
  intros G H Q; unfold get_records; rewrite G.
  now apply records_files_prefix_error.
Qed.

Lemma records_files_log (fs : filesystem) (paths : list string)
    (rows_of : string -> list row) (st : stream) :
  (forall p, In p paths -> fs p = Some (FileNode (rows_of p))) ->
  snd (records_files fs paths st) =
  log_events (concat (map (fun p => Opened p (get_rows_opener p)
                                     :: map (fun _ => RowRead p) (rows_of p))
                          paths)) st.
Proof.
  revert st; induction paths as [|p paths IH]; intros st H; simpl.
  - now rewrite log_events_nil.
  - unfold get_rows at 1; rewrite (H p (or_introl eq_refl)).
    specialize (IH (log_events (Opened p (get_rows_opener p)
                                  :: map (fun _ => RowRead p) (rows_of p)) st)
                   (fun x Hx => H x (or_intror Hx))).
    destruct (records_files fs paths _) as [[recs e] st2]; simpl in *.
    now rewrite IH, log_events_app.
Qed.

(** X10: when every resolved path is a file, [get_records] opens each of
    them once, in order, with the opener its suffix selects, and reads every
    row of each (the header included); it does nothing else. *)
Theorem get_records_reads_all_rows (normpath : string -> string) (name : string)
    (cfg : file_config) (fs : filesystem) (st st' : stream)
    (paths : list string) (rows_of : string -> list row) :
  get_file_paths normpath name cfg fs st = (inr paths, st') ->
  (forall p, In p paths -> fs p = Some (FileNode (rows_of p))) ->
  snd (get_records normpath name cfg fs st) =
  log_events (concat (map (fun p => Opened p (get_rows_opener p)
                                     :: map (fun _ => RowRead p) (rows_of p))
                          paths)) st'.
Proof.
  intros G H; unfold get_records; rewrite G.
  now apply records_files_log.
Qed.

Lemma records_files_attrs (fs : filesystem) (paths : list string) (st : stream) :
  (snd (records_files fs paths st)).(file_paths) = st.(file_paths) /\
  (snd (records_files fs paths st)).(primary_keys) = st.(primary_keys).
Proof.
  revert st; induction paths as [|p paths IH]; intros st; simpl; [auto|].
  destruct (get_rows fs p) as [e|[o rows]]; simpl; [auto|].
  specialize (IH (log_events (Opened p o :: map (fun _ => RowRead p) rows) st)).
  destruct (records_files fs paths _) as [[recs e] st2]; simpl in *.
  destruct st; exact IH.
Qed.

Lemma get_file_paths_success_cached (normpath : string -> string)
    (name : string) (cfg : file_config) (fs : filesystem) (st st' : stream)
    (l : list string) :
  get_file_paths normpath name cfg fs st = (inr l, st') ->
  st'.(file_paths) = l /\ l <> [].
Proof.
  intros G; destruct (file_paths st) as [|p ps] eqn:C.
  - destruct (fs (cfg_path cfg)) as [nd|] eqn:F.
    + rewrite (get_file_paths_uncached_log normpath name cfg fs st nd C F) in G.
      destruct (filter valid_name _); [discriminate|].
      injection G as <- <-; split; [reflexivity|discriminate].
    + rewrite (get_file_paths_missing normpath name cfg fs st C F) in G;
        discriminate.
  - rewrite get_file_paths_cached in G by congruence.
    injection G as <- <-; rewrite C; split; [reflexivity|discriminate].
Qed.

(** X11: [get_records] never changes the primary keys, and once it has
    resolved the paths the instance holds that list, whether or not a file
    fails to open later. *)
Theorem get_records_attrs (normpath : string -> string) (name : string)
    (cfg : file_config) (fs : filesystem) (st : stream) :
  (snd (get_records normpath name cfg fs st)).(primary_keys) = st.(primary_keys) /\
  (forall paths st', get_file_paths normpath name cfg fs st = (inr paths, st') ->
   (snd (get_records normpath name cfg fs st)).(file_paths) = paths).
Proof.
  pose proof (get_file_paths_effects normpath name cfg fs st) as [Hpk _].
  pose proof (get_file_paths_success_cached normpath name cfg fs st) as Hc.
  unfold get_records.
  destruct (get_file_paths normpath name cfg fs st) as [[e|paths] st'];
    simpl in *.
  - split; [exact Hpk|discriminate].
  - destruct (records_files_attrs fs paths st') as [Hf Hp].
    split; [congruence|].
    intros paths' st'' E; injection E as <- <-.
    destruct (Hc st' paths eq_refl) as [Hl _]; congruence.
Qed.

(** X12: if the first resolved file starts with a blank line, [schema]
    returns no properties at all, while [get_records] skips that blank row
    and keys the file's records by the next non-empty one. *)
Theorem schema_blank_first_row (normpath : string -> string) (name : string)
    (cfg : file_config) (fs : filesystem) (st st1 : stream)
    (p : string) (ps : list string) (rest : list row) :
  get_file_paths normpath name cfg fs
    (mk_stream st.(file_paths) (Some (config_keys cfg)) st.(log))
    = (inr (p :: ps), st1) ->
  fs p = Some (FileNode ([] :: rest)) ->
  fst (schema normpath name cfg fs st) = inr [] /\
  file_records [] ([] :: rest) = file_records [] rest.
Proof.
  intros G F; rewrite schema_eq, G, (get_rows_file fs p _ F).
  split; reflexivity.
Qed.

(** X13: a failed resolution makes [schema] raise the same exception
    without opening any file. *)
Theorem schema_resolution_error (normpath : string -> string) (name : string)
    (cfg : file_config) (fs : filesystem) (st st1 : stream) (e : exc) :
  get_file_paths normpath name cfg fs
    (mk_stream st.(file_paths) (Some (config_keys cfg)) st.(log))
    = (inl e, st1) ->
  schema normpath name cfg fs st = (inl e, st1).
Proof. intros G; now rewrite schema_eq, G. Qed.

(** X14: after a successful [schema], the instance holds the resolved list
    whose first path gave the header; [get_records] then reads exactly that
    list, whatever the file system has become, without resolving again. *)
Theorem schema_then_get_records (normpath : string -> string) (name : string)
    (cfg : file_config) (fs1 : filesystem) (st st' : stream)
    (props : list property) :
  schema normpath name cfg fs1 st = (inr props, st') ->
  exists p ps header rest,
    st'.(file_paths) = p :: ps /\
    fs1 p = Some (FileNode (header :: rest)) /\
    props = map (fun column => (column, StringType)) header /\
    (forall fs2, get_records normpath name cfg fs2 st' =
                 records_files fs2 (p :: ps) st').
Proof.
  rewrite schema_eq.
  destruct (get_file_paths normpath name cfg fs1 _) as [[e|[|p ps]] st1] eqn:G;
    try discriminate.
  apply get_file_paths_success_cached in G as [Hf _].
  unfold get_rows.
  destruct (fs1 p) as [[[|header rest]|entries]|] eqn:F; try discriminate.
  intros E; injection E as <- <-.
  assert (Hst : file_paths (log_events [Opened p (get_rows_opener p); RowRead p] st1)
                = p :: ps) by (destruct st1; exact Hf).
  exists p, ps, header, rest; split; [exact Hst|split; [exact F|split; [reflexivity|]]].
  intros fs2; unfold get_records.
  rewrite get_file_paths_cached by (rewrite Hst; discriminate).
  now rewrite Hst.
Qed.

(** ** Instances of the further properties *)

Lemma NoDup_id_name : NoDup ["id"; "name"].
Proof.
  constructor; [simpl; intros [H|[]]; discriminate|].
  constructor; [intros []|constructor].
Qed.

Lemma zip_dict_distinct_witness :
  zip_dict ["id"; "name"] ["1"] = [("id", "1")].
Proof. apply (zip_dict_distinct ["id"; "name"] ["1"] NoDup_id_name). Defined.

Lemma zip_dict_lookup_nth_witness :
  lookup "name" (zip_dict ["id"; "name"] ["1"; "Ann"]) = Some "Ann".
Proof.
  apply (zip_dict_lookup_nth ["id"; "name"] ["1"; "Ann"] 1 NoDup_id_name);
    simpl; lia.
Defined.

Lemma get_file_paths_warnings_witness :
  (snd (get_file_paths id_normpath "s" (mk_config "d" None) fs_subdir
          init_stream)).(log) =
  [Warning "Skipping non-csv file 'd/notes'";
   Warning ("Please provide a CSV file with any of supported extensions: "
            ++ ".csv, .csv.gz, .csv.bz2, .csv.xz, .csv.lzma")].
Proof.
  rewrite (get_file_paths_warnings id_normpath "s" (mk_config "d" None) fs_subdir
             init_stream (DirNode ["data.csv"; "notes"]) eq_refl eq_refl).
  reflexivity.
Defined.

Lemma get_file_paths_failure_not_cached_witness :
  (snd (get_file_paths id_normpath "s" (mk_config "d" None) fs_txt
          init_stream)).(file_paths) = [].
Proof.
  apply (get_file_paths_failure_not_cached id_normpath "s" (mk_config "d" None)
           fs_txt init_stream
           (snd (get_file_paths id_normpath "s" (mk_config "d" None) fs_txt
                   init_stream))
           (Exception (no_files_msg "s"))).
  reflexivity.
Defined.

Lemma get_file_paths_single_file_witness :
  get_file_paths id_normpath "s" (mk_config "a.csv" None) fs_blank init_stream =
  (inr ["a.csv"], mk_stream ["a.csv"] None []).
Proof.
  apply (proj1 (get_file_paths_single_file id_normpath "s" (mk_config "a.csv" None)
                  fs_blank init_stream [[]; ["id"]; ["1"]] eq_refl eq_refl)).
  reflexivity.
Defined.

Lemma get_file_paths_result_valid_witness :
  valid_name "d/b.CSV.GZ" = true /\
  In "d/b.CSV.GZ" ["d/a.csv"; "d/b.CSV.GZ"].
Proof.
  split; [|simpl; auto].
  apply (get_file_paths_result_valid id_normpath "s" (mk_config "d" None) fs_two
           init_stream
           (snd (get_file_paths id_normpath "s" (mk_config "d" None) fs_two
                   init_stream))
           ["d/a.csv"; "d/b.CSV.GZ"] eq_refl eq_refl).
  simpl; auto.
Defined.

Lemma get_records_stops_at_open_error_witness :
  get_records id_normpath "s" (mk_config "d" None) fs_mixed init_stream =
  ([[("id", "1")]; [("id", "2")]], Some (IsADirectoryError "d/sub.csv"),
   log_events [Opened "d/a.csv" builtin_open; RowRead "d/a.csv";
               RowRead "d/a.csv"; RowRead "d/a.csv"]
     (snd (get_file_paths id_normpath "s" (mk_config "d" None) fs_mixed
             init_stream))).
Proof.
  apply (get_records_stops_at_open_error id_normpath "s" (mk_config "d" None)
           fs_mixed init_stream
           (snd (get_file_paths id_normpath "s" (mk_config "d" None) fs_mixed
                   init_stream))
           ["d/a.csv"] ["d/b.csv"] "d/sub.csv" (rows_in fs_mixed)).
  - reflexivity.
  - intros p [<-|[]]; reflexivity.
  - reflexivity.
Defined.

Lemma get_records_reads_all_rows_witness :
  (snd (get_records id_normpath "s" (mk_config "d" None) fs_two init_stream)).(log) =
  [Opened "d/a.csv" builtin_open; RowRead "d/a.csv"; RowRead "d/a.csv";
   RowRead "d/a.csv"; Opened "d/b.CSV.GZ" gzip_open; RowRead "d/b.CSV.GZ";
   RowRead "d/b.CSV.GZ"].
Proof.
  rewrite (get_records_reads_all_rows id_normpath "s" (mk_config "d" None) fs_two
             init_stream
             (snd (get_file_paths id_normpath "s" (mk_config "d" None) fs_two
                     init_stream))
             ["d/a.csv"; "d/b.CSV.GZ"] (rows_in fs_two)).
  - reflexivity.
  - reflexivity.
  - intros p [<-|[<-|[]]]; reflexivity.
Defined.

Lemma get_records_attrs_witness :
  (snd (get_records id_normpath "s" (mk_config "d" None) fs_mixed
          init_stream)).(file_paths) = ["d/a.csv"; "d/sub.csv"; "d/b.csv"].
Proof.
  apply (proj2 (get_records_attrs id_normpath "s" (mk_config "d" None) fs_mixed
                  init_stream) _
           (snd (get_file_paths id_normpath "s" (mk_config "d" None) fs_mixed
                   init_stream))).
  reflexivity.
Defined.

Lemma schema_blank_first_row_witness :
  fst (schema id_normpath "s" (mk_config "a.csv" None) fs_blank init_stream) = inr [] /\
  file_records [] [[]; ["id"]; ["1"]] = file_records [] [["id"]; ["1"]].
Proof.
  apply (schema_blank_first_row id_normpath "s" (mk_config "a.csv" None) fs_blank
           init_stream (mk_stream ["a.csv"] (Some []) []) "a.csv" []
           [["id"]; ["1"]]); reflexivity.
Defined.

Lemma schema_resolution_error_witness :
  schema id_normpath "s" (mk_config "missing.csv" None) fs_missing init_stream =
  (inl (Exception "File path does not exist missing.csv"),
   mk_stream [] (Some []) []).
Proof.
  apply (schema_resolution_error id_normpath "s" (mk_config "missing.csv" None)
           fs_missing init_stream).
  reflexivity.
Defined.

Lemma schema_then_get_records_witness :
  exists p ps header rest,
    (snd (schema id_normpath "s" (mk_config "d" None) fs_two init_stream)).(file_paths)
      = p :: ps /\
    fs_two p = Some (FileNode (header :: rest)) /\
    [("id", StringType); ("name", StringType)] =
      map (fun column => (column, StringType)) header /\
    (forall fs2, get_records id_normpath "s" (mk_config "d" None) fs2
                   (snd (schema id_normpath "s" (mk_config "d" None) fs_two
                           init_stream)) =
                 records_files fs2 (p :: ps)
                   (snd (schema id_normpath "s" (mk_config "d" None) fs_two
                           init_stream))).
Proof.
  apply (schema_then_get_records id_normpath "s" (mk_config "d" None) fs_two
           init_stream).
  reflexivity.
Defined.
